(** * Pioneer network receiver driver

    A shallow embedding of [custom_components/pioneer/const.py] and
    [custom_components/pioneer/media_player.py]: the zone command table,
    the telnet request/response matching, the poll cycle [update], the
    state accessors and the action commands of [PioneerDevice].

    Python values are embedded as follows.
    - [str] is [string]; a [bytes] value read from or written to the socket
      is identified with its ASCII text (the driver only ever encodes and
      decodes ASCII).
    - [int] is [Z].  [float] is [pyfloat]: a finite value is the exact
      rational it denotes (binary64 rounding is not modelled), next to the
      infinities and NaN that [float(str)] can produce.
    - [None] is [None] of an [option]; exceptions are the [Raised] outcome
      of an explicit state-and-exception monad [Eff].
    - The instance dictionaries are [gmap string string]; the literal
      dictionaries of [const.py] are association lists in source order. *)

From Stdlib Require Import ZArith QArith Qround Qabs Lqa String Ascii List DecimalString Bool Lia.
From stdpp Require Import gmap strings.
Import ListNotations.

Local Open Scope Z_scope.

(** ** Python built-ins used by the driver *)

Module Py.

Definition CR : ascii := ascii_of_nat 13.

(** [str.isspace] on an ASCII character: TAB..CR, FS..US and space. *)
Definition isspace (c : ascii) : bool :=
  let n := nat_of_ascii c in
  ((9 <=? n) && (n <=? 13) || (28 <=? n) && (n <=? 32))%nat.

Fixpoint lstrip (s : string) : string :=
  match s with
  | String c s' => if isspace c then lstrip s' else s
  | EmptyString => EmptyString
  end.

Fixpoint rstrip (s : string) : string :=
  match s with
  | EmptyString => EmptyString
  | String c s' =>
      match rstrip s' with
      | EmptyString => if isspace c then EmptyString else String c EmptyString
      | r => String c r
      end
  end.

(** [s.strip()] *)
Definition strip (s : string) : string := rstrip (lstrip s).

(** [s.startswith(p)] *)
Definition startswith (s p : string) : bool := String.prefix p s.

(** [s[n:]] for a non-negative literal [n] *)
Fixpoint slice_from (n : nat) (s : string) : string :=
  match n, s with
  | O, _ => s
  | S n', String _ s' => slice_from n' s'
  | S _, EmptyString => EmptyString
  end.

(** [str(z)] for an [int] *)
Definition str_int (z : Z) : string := NilZero.string_of_int (Z.to_int z).

Fixpoint zeros (n : nat) : string :=
  match n with
  | O => EmptyString
  | S n' => String "0" (zeros n')
  end.

(** [s.zfill(w)]: the padding goes after a leading sign. *)
Definition zfill (w : nat) (s : string) : string :=
  let pad := zeros (w - String.length s) in
  match s with
  | String c s' =>
      if (Ascii.eqb c "+" || Ascii.eqb c "-")%bool
      then String c (pad +:+ s')
      else pad +:+ s
  | EmptyString => pad
  end.

(** [f"{z:03}"] for an [int]: sign-aware zero padding to width 3. *)
Definition format_03 (z : Z) : string := zfill 3 (str_int z).

(** [f"{x}"] for a value that is a [str] or [None]. *)
Definition format_opt (x : option string) : string :=
  match x with
  | Some s => s
  | None => "None"%string
  end.

(** Truth value of a [str]-or-[None]: [None] and the empty string are false. *)
Definition truthy (x : option string) : bool :=
  match x with
  | Some EmptyString => false
  | Some _ => true
  | None => false
  end.

(** *** [float] *)

Inductive pyfloat : Type :=
| PFin (q : Q)
| PInf (negative : bool)
| PNan.

Definition is_digit (c : ascii) : bool :=
  let n := nat_of_ascii c in ((48 <=? n) && (n <=? 57))%nat.

Definition digit_val (c : ascii) : Z := Z.of_nat (nat_of_ascii c - 48).

Definition lower (c : ascii) : ascii :=
  let n := nat_of_ascii c in
  if ((65 <=? n) && (n <=? 90))%nat then ascii_of_nat (n + 32) else c.

Fixpoint lower_str (s : string) : string :=
  match s with
  | String c s' => String (lower c) (lower_str s')
  | EmptyString => EmptyString
  end.

(** The tail [(["_"] digit)*] of a digit part: accumulated value, number
    of digits read, and the unread rest. *)
Fixpoint digits_tail (s : string) (v : Z) (n : nat) : Z * nat * string :=
  match s with
  | String c s' =>
      if is_digit c then digits_tail s' (10 * v + digit_val c) (S n)
      else if Ascii.eqb c "_" then
        match s' with
        | String d s'' =>
            if is_digit d then digits_tail s'' (10 * v + digit_val d) (S n)
            else (v, n, s)
        | EmptyString => (v, n, s)
        end
      else (v, n, s)
  | EmptyString => (v, n, s)
  end.

(** [digitpart ::= digit (["_"] digit)*], continuing from value [v]. *)
Definition digitpart (s : string) (v : Z) : option (Z * nat * string) :=
  match s with
  | String c s' =>
      if is_digit c then Some (digits_tail s' (10 * v + digit_val c) 1%nat)
      else None
  | EmptyString => None
  end.

(** [number ::= [digitpart] "." digitpart | digitpart ["."]]: mantissa,
    number of fraction digits, rest. *)
Definition number (s : string) : option (Z * nat * string) :=
  match digitpart s 0 with
  | Some (i, _, String "." r) =>
      match digitpart r i with
      | Some (m, fd, r') => Some (m, fd, r')
      | None => Some (i, O, r)
      end
  | Some (i, _, r) => Some (i, O, r)
  | None =>
      match s with
      | String "." r => digitpart r 0
      | _ => None
      end
  end.

Definition sign_of (s : string) : bool * string :=
  match s with
  | String "-" r => (true, r)
  | String "+" r => (false, r)
  | _ => (false, s)
  end.

(** [exponent ::= ("e" | "E") [sign] digitpart] *)
Definition exponent (s : string) : option (Z * string) :=
  match s with
  | String c r =>
      if Ascii.eqb (lower c) "e" then
        let '(neg, r') := sign_of r in
        match digitpart r' 0 with
        | Some (e, _, rest) => Some (if neg then - e else e, rest)
        | None => None
        end
      else None
  | EmptyString => None
  end.

(** [m * 10 ^ e] as a rational *)
Definition scale10 (m e : Z) : Q :=
  if 0 <=? e then Qmake (m * 10 ^ e) 1 else Qmake m (Z.to_pos (10 ^ (- e))).

Definition floatnumber (s : string) : option Q :=
  match number s with
  | Some (m, fd, EmptyString) => Some (scale10 m (- Z.of_nat fd))
  | Some (m, fd, r) =>
      match exponent r with
      | Some (e, EmptyString) => Some (scale10 m (e - Z.of_nat fd))
      | _ => None
      end
  | None => None
  end.

(** [float(s)] for a [str]; [None] stands for [ValueError]. *)
Definition float (s : string) : option pyfloat :=
  let '(neg, r) := sign_of (strip s) in
  let l := lower_str r in
  if (String.eqb l "inf" || String.eqb l "infinity")%bool then Some (PInf neg)
  else if String.eqb l "nan" then Some PNan
  else
    match floatnumber r with
    | Some q => Some (PFin (if neg then Qopp q else q))
    | None => None
    end.

(** [x / n] for a [float] [x] and a positive [int] [n] *)
Definition float_div (x : pyfloat) (n : Z) : pyfloat :=
  match x with
  | PFin q => PFin (Qdiv q (inject_Z n))
  | other => other
  end.

(** [round(x)] for a finite [float]: ties go to the even integer. *)
Definition round (x : Q) : Z :=
  let n := Qfloor x in
  match Qcompare (Qminus x (inject_Z n)) (Qmake 1 2) with
  | Lt => n
  | Gt => n + 1
  | Eq => if Z.even n then n else n + 1
  end.

End Py.

Local Open Scope string_scope.

(** ** const.py *)

(** Lookup in a dictionary literal, kept as its items in source order. *)
Fixpoint assoc {K V : Type} `{EqDecision K} (k : K) (d : list (K * V)) : option V :=
  match d with
  | [] => None
  | (k', v) :: d' => if decide (k = k') then Some v else assoc k d'
  end.

Definition DEFAULT_ZONE : Z := 1.

Definition DEFAULT_SOURCES : list (string * string) :=
  [ ("Phono", "00"); ("CD", "01"); ("Tuner", "02"); ("CD-R/Tape", "03");
    ("DVD", "04"); ("TV/Sat", "05"); ("Sat/Cbl", "06"); ("Video 1", "10");
    ("Multi Channel In", "12"); ("Video 2", "14"); ("DVR/BDR", "15");
    ("iPod/USB", "17"); ("XM Radio", "18"); ("HDMI 1", "19"); ("HDMI 2", "20");
    ("HDMI 3", "21"); ("HDMI 4", "22"); ("HDMI 5", "23"); ("HDMI 6", "24");
    ("Blu-Ray", "25"); ("Home Media Gallery (Internet Radio)", "26");
    ("Sirius", "27"); ("Adapter Port", "33"); ("Netradio", "38");
    ("Media Server", "44"); ("Favorites", "45"); ("Game", "49") ].

Definition MAX_VOLUME : Z := 185.
Definition MAX_SOURCE_NUMBERS : Z := 60.

Definition ZONE_COMMANDS : list (Z * list (string * list (string * string))) :=
  [ (1, [ ("POWER", [("COMMAND", "?P"); ("PREFIX", "PWR")]);
          ("VOL", [("COMMAND", "?V"); ("PREFIX", "VOL")]);
          ("MUTE", [("COMMAND", "?M"); ("PREFIX", "MUT")]);
          ("SOURCE_NUM", [("COMMAND", "?F"); ("PREFIX", "FN")]);
          ("TURN_OFF", [("COMMAND", "PF")]);
          ("VOL_UP", [("COMMAND", "VU")]);
          ("VOL_DOWN", [("COMMAND", "VD")]);
          ("VOL_LEVEL", [("COMMAND", "VL")]);
          ("MUTE_VOL", [("COMMAND", "MF")]);
          ("UNMUTE_VOL", [("COMMAND", "MO")]);
          ("TURN_ON", [("COMMAND", "PO")]);
          ("SELECT_SOURCE", [("COMMAND", "FN")]);
          ("MUTED_VALUE", [("COMMAND", "MUT0")]) ]);
    (2, [ ("POWER", [("COMMAND", "?AP"); ("PREFIX", "APR")]);
          ("VOL", [("COMMAND", "?ZV"); ("PREFIX", "ZV")]);
          ("MUTE", [("COMMAND", "?Z2M"); ("PREFIX", "Z2MUT")]);
          ("SOURCE_NUM", [("COMMAND", "?ZS"); ("PREFIX", "Z2F")]);
          ("TURN_OFF", [("COMMAND", "APF")]);
          ("VOL_UP", [("COMMAND", "ZU")]);
          ("VOL_DOWN", [("COMMAND", "ZD")]);
          ("VOL_LEVEL", [("COMMAND", "ZV")]);
          ("MUTE_VOL", [("COMMAND", "Z2MF")]);
          ("UNMUTE_VOL", [("COMMAND", "Z2MO")]);
          ("TURN_ON", [("COMMAND", "APO")]);
          ("SELECT_SOURCE", [("COMMAND", "ZS")]);
          ("MUTED_VALUE", [("COMMAND", "Z2MUT0")]) ]) ].

(** ** Exceptions and effects *)

Inductive exn : Type :=
| KeyError
| TypeError
| ValueError
| IndexError
| SocketTimeout.

Inductive outcome (A : Type) : Type :=
| Returned (a : A)
| Raised (e : exn).

Arguments Returned {A} a.
Arguments Raised {A} e.

(** A computation over a mutable state [S] that returns or raises; the
    state reached when an exception is raised is kept, as assignments made
    before a Python exception are. *)
Definition Eff (S A : Type) : Type := S -> outcome A * S.

Definition ret {S A : Type} (a : A) : Eff S A := fun s => (Returned a, s).

Definition raise {S A : Type} (e : exn) : Eff S A := fun s => (Raised e, s).

Definition bind {S A B : Type} (m : Eff S A) (k : A -> Eff S B) : Eff S B :=
  fun s =>
    match m s with
    | (Returned a, s') => k a s'
    | (Raised e, s') => (Raised e, s')
    end.

Notation "x <- m ;; k" := (bind m (fun x => k))
  (at level 100, m at next level, right associativity).
Notation "m ;; k" := (bind m (fun _ => k))
  (at level 100, right associativity).

(** [for x in l: body(x)] *)
Fixpoint for_each {S A : Type} (l : list A) (body : A -> Eff S unit) : Eff S unit :=
  match l with
  | [] => ret tt
  | x :: l' => body x ;; for_each l' body
  end.

(** [range(n)] *)
Definition range (n : Z) : list Z := map Z.of_nat (seq 0 (Z.to_nat n)).

(** [d[k]] on a dictionary literal *)
Definition getitem {S K V : Type} `{EqDecision K} (d : list (K * V)) (k : K) : Eff S V :=
  match assoc k d with
  | Some v => ret v
  | None => raise KeyError
  end.

(** [d.get(op)[key]]: subscripting the [None] of a missing [op] is a
    [TypeError]. *)
Definition get_item {S : Type} (d : list (string * list (string * string)))
    (op key : string) : Eff S string :=
  match assoc op d with
  | Some entry => getitem entry key
  | None => raise TypeError
  end.

(** ** The telnet connection

    A connection is a script of what the peer and the socket will do:
    [inbound] lists what the successive
    [read_until(b"\r\n", timeout=0.2).decode("ASCII")] calls yield (a call
    made when the script is exhausted times out and yields the empty
    string; a read that raises is outside the model); [write_timeouts] says for the
    successive [write] calls whether they raise [socket.timeout] (none does
    once the script is exhausted); [written] logs what was written. *)

Record Telnet : Type := mkTelnet {
  inbound : list string;
  write_timeouts : list bool;
  written : list string;
  closed : bool
}.

Definition write (data : string) : Eff Telnet unit :=
  fun t =>
    match write_timeouts t with
    | true :: ws => (Raised SocketTimeout, mkTelnet (inbound t) ws (written t) (closed t))
    | false :: ws => (Returned tt, mkTelnet (inbound t) ws (written t ++ [data]) (closed t))
    | [] => (Returned tt, mkTelnet (inbound t) [] (written t ++ [data]) (closed t))
    end.

Definition read_until : Eff Telnet string :=
  fun t =>
    match inbound t with
    | line :: rest => (Returned line, mkTelnet rest (write_timeouts t) (written t) (closed t))
    | [] => (Returned "", t)
    end.

(** [read_very_eager()]: takes whatever has arrived; the driver drops it. *)
Definition read_very_eager : Eff Telnet string :=
  fun t =>
    (Returned (String.concat "" (inbound t)),
     mkTelnet [] (write_timeouts t) (written t) (closed t)).

Definition close : Eff Telnet unit :=
  fun t => (Returned tt, mkTelnet (inbound t) (write_timeouts t) (written t) true).

(** [telnetlib.Telnet(host, port, timeout)]: [OSError] or a connection. *)
Inductive connect_result : Type :=
| Refused
| Connected (telnet : Telnet).

(** The [for _ in range(3)] loop of [telnet_request], with the number of
    attempts left. *)
Fixpoint read_matching (attempts : nat) (expected_prefix : string)
    : Eff Telnet (option string) :=
  match attempts with
  | O => ret None
  | S n =>
      raw <- read_until ;;
      let result := Py.strip raw in
      if Py.startswith result expected_prefix then ret (Some result)
      else read_matching n expected_prefix
  end.

Definition telnet_request (command expected_prefix : string)
    : Eff Telnet (option string) :=
  fun telnet =>
    match write (command +:+ String Py.CR "") telnet with
    | (Raised SocketTimeout, telnet') => (Returned None, telnet')
    | (Raised e, telnet') => (Raised e, telnet')
    | (Returned _, telnet') => read_matching 3 expected_prefix telnet'
    end.

(** ** media_player.py: [PioneerDevice] *)

Inductive MediaPlayerState : Type :=
| OFF
| ON.

Record PioneerDevice : Type := mkPioneerDevice {
  _name : string;
  _host : string;
  _port : Z;
  _timeout : Z;
  _pwstate : string;
  _volume : option Py.pyfloat;
  _muted : option bool;
  _selected_source : option string;
  _source_name_to_number : gmap string string;
  _source_number_to_name : gmap string string;
  _zone : Z;
  _attr_unique_id : string
}.

(** Assignments to the attributes that [update] writes. *)
Definition set_pwstate (v : string) (d : PioneerDevice) : PioneerDevice :=
  mkPioneerDevice (_name d) (_host d) (_port d) (_timeout d) v (_volume d)
    (_muted d) (_selected_source d) (_source_name_to_number d)
    (_source_number_to_name d) (_zone d) (_attr_unique_id d).

Definition set_volume (v : option Py.pyfloat) (d : PioneerDevice) : PioneerDevice :=
  mkPioneerDevice (_name d) (_host d) (_port d) (_timeout d) (_pwstate d) v
    (_muted d) (_selected_source d) (_source_name_to_number d)
    (_source_number_to_name d) (_zone d) (_attr_unique_id d).

Definition set_muted (v : option bool) (d : PioneerDevice) : PioneerDevice :=
  mkPioneerDevice (_name d) (_host d) (_port d) (_timeout d) (_pwstate d)
    (_volume d) v (_selected_source d) (_source_name_to_number d)
    (_source_number_to_name d) (_zone d) (_attr_unique_id d).

Definition set_selected_source (v : option string) (d : PioneerDevice) : PioneerDevice :=
  mkPioneerDevice (_name d) (_host d) (_port d) (_timeout d) (_pwstate d)
    (_volume d) (_muted d) v (_source_name_to_number d)
    (_source_number_to_name d) (_zone d) (_attr_unique_id d).

(** [self._source_name_to_number[k] = v] *)
Definition store_name_to_number (k v : string) (d : PioneerDevice) : PioneerDevice :=
  mkPioneerDevice (_name d) (_host d) (_port d) (_timeout d) (_pwstate d)
    (_volume d) (_muted d) (_selected_source d)
    (<[k := v]> (_source_name_to_number d))
    (_source_number_to_name d) (_zone d) (_attr_unique_id d).

(** [self._source_number_to_name[k] = v] *)
Definition store_number_to_name (k v : string) (d : PioneerDevice) : PioneerDevice :=
  mkPioneerDevice (_name d) (_host d) (_port d) (_timeout d) (_pwstate d)
    (_volume d) (_muted d) (_selected_source d) (_source_name_to_number d)
    (<[k := v]> (_source_number_to_name d)) (_zone d) (_attr_unique_id d).

(** A dictionary built from items in order: a later item with the same key
    replaces an earlier one. *)
Definition dict_of_items (items : list (string * string)) : gmap string string :=
  fold_left (fun m kv => <[fst kv := snd kv]> m) items ∅.

Definition swap_item (kv : string * string) : string * string := (snd kv, fst kv).

(** [filter(filter_sources, DEFAULT_SOURCES.items())]; the keys of the
    catalogue are distinct, so these are also the items of [source_list],
    in insertion order. *)
Definition filter_sources (sources : list string) : list (string * string) :=
  List.filter (fun pair => bool_decide (fst pair ∈ sources)) DEFAULT_SOURCES.

(** [PioneerDevice.__init__] *)
Definition init (name host : string) (port timeout : Z) (sources : list string)
    (zone : Z) : PioneerDevice :=
  let source_items := filter_sources sources in
  {| _name := name;
     _host := host;
     _port := port;
     _timeout := timeout;
     _pwstate := "PWR1";
     _volume := Some (Py.PFin 0);
     _muted := Some false;
     _selected_source := Some "";
     _source_name_to_number := dict_of_items source_items;
     _source_number_to_name := dict_of_items (map swap_item source_items);
     _zone := zone;
     _attr_unique_id := "pioneer_" +:+ Py.str_int zone |}.

(** The state of a method that holds a connection: the instance and the
    local [telnet]. *)
Abbreviation Session := (PioneerDevice * Telnet)%type.

Definition self : Eff Session PioneerDevice := fun s => (Returned (fst s), s).

Definition assign (f : PioneerDevice -> PioneerDevice) : Eff Session unit :=
  fun s => (Returned tt, (f (fst s), snd s)).

Definition on_telnet {A : Type} (m : Eff Telnet A) : Eff Session A :=
  fun s => let '(r, t') := m (snd s) in (r, (fst s, t')).

(** The body of the [for i in range(MAX_SOURCE_NUMBERS)] loop. *)
Definition learn_source (i : Z) : Eff Session unit :=
  result <- on_telnet (telnet_request ("?RGB" +:+ Py.zfill 2 (Py.str_int i)) "RGB") ;;
  match result with
  | Some (String _ _ as result) =>
      let source_name := Py.slice_from 6 result in
      let source_number := Py.zfill 2 (Py.str_int i) in
      assign (store_name_to_number source_name source_number) ;;
      assign (store_number_to_name source_number source_name)
  | _ => ret tt
  end.

(** The poll cycle of [update], statement by statement, from
    [zone_commands = ZONE_COMMANDS[self._zone]] on. *)

Definition poll_power (zone_commands : list (string * list (string * string)))
    : Eff Session unit :=
  command <- get_item zone_commands "POWER" "COMMAND" ;;
  prefix <- get_item zone_commands "POWER" "PREFIX" ;;
  pwstate <- on_telnet (telnet_request command prefix) ;;
  match pwstate with
  | Some (String _ _ as pwstate) => assign (set_pwstate pwstate)
  | _ => ret tt
  end.

Definition poll_volume (zone_commands : list (string * list (string * string)))
    : Eff Session unit :=
  command <- get_item zone_commands "VOL" "COMMAND" ;;
  prefix <- get_item zone_commands "VOL" "PREFIX" ;;
  volume_str <- on_telnet (telnet_request command prefix) ;;
  volume <- match volume_str with
            | Some (String _ _ as volume_str) =>
                match Py.float (Py.slice_from 3 volume_str) with
                | Some x => ret (Some (Py.float_div x MAX_VOLUME))
                | None => raise ValueError
                end
            | _ => ret None
            end ;;
  assign (set_volume volume).

Definition poll_mute (zone_commands : list (string * list (string * string)))
    : Eff Session unit :=
  command <- get_item zone_commands "MUTE" "COMMAND" ;;
  prefix <- get_item zone_commands "MUTE" "PREFIX" ;;
  muted_value <- on_telnet (telnet_request command prefix) ;;
  muted <- match muted_value with
           | Some (String _ _ as muted_value) =>
               entry <- getitem zone_commands "MUTED_VALUE" ;;
               sentinel <- getitem entry "COMMAND" ;;
               ret (Some (String.eqb muted_value sentinel))
           | _ => ret None
           end ;;
  assign (set_muted muted).

(** [if not self._source_name_to_number: for i in range(MAX_SOURCE_NUMBERS): ...] *)
Definition learn_sources : Eff Session unit :=
  d <- self ;;
  if bool_decide (_source_name_to_number d = ∅)
  then for_each (range MAX_SOURCE_NUMBERS) learn_source
  else ret tt.

Definition poll_source (zone_commands : list (string * list (string * string)))
    : Eff Session unit :=
  command <- get_item zone_commands "SOURCE_NUM" "COMMAND" ;;
  prefix <- get_item zone_commands "SOURCE_NUM" "PREFIX" ;;
  source_number <- on_telnet (telnet_request command prefix) ;;
  match source_number with
  | Some (String _ _ as source_number) =>
      d <- self ;;
      assign (set_selected_source
                (_source_number_to_name d !! Py.slice_from 2 source_number))
  | _ => assign (set_selected_source None)
  end.

Definition update_connected : Eff Session bool :=
  d <- self ;;
  zone_commands <- getitem ZONE_COMMANDS (_zone d) ;;
  poll_power zone_commands ;;
  poll_volume zone_commands ;;
  poll_mute zone_commands ;;
  learn_sources ;;
  poll_source zone_commands ;;
  on_telnet close ;;
  ret true.

(** The state between method calls: the instance, and the connection that
    the next [telnetlib.Telnet(...)] call yields; after the call it holds
    what became of that connection. *)
Abbreviation World := (PioneerDevice * connect_result)%type.

(** [PioneerDevice.update] *)
Definition update : Eff World bool :=
  fun w =>
    match snd w with
    | Refused => (Returned false, w)
    | Connected telnet =>
        let '(r, (d, telnet')) := update_connected (fst w, telnet) in
        (r, (d, Connected telnet'))
    end.

(** [PioneerDevice.state] *)
Definition state (d : PioneerDevice) : option MediaPlayerState :=
  if String.eqb (_pwstate d) "PWR2" then Some OFF
  else if String.eqb (_pwstate d) "PWR1" then Some OFF
  else if String.eqb (_pwstate d) "PWR0" then Some ON
  else None.

Definition volume_level (d : PioneerDevice) : option Py.pyfloat := _volume d.
Definition is_volume_muted (d : PioneerDevice) : option bool := _muted d.
Definition source (d : PioneerDevice) : option string := _selected_source d.

(** [PioneerDevice.telnet_command]: a refused connection returns at once;
    a [socket.timeout] raised while writing is caught by the outer [try]. *)
Definition telnet_command (command : string) : Eff World unit :=
  fun w =>
    match snd w with
    | Refused => (Returned tt, w)
    | Connected telnet =>
        match (write (command +:+ String Py.CR "") ;;
               read_very_eager ;;
               close) telnet with
        | (Raised SocketTimeout, telnet') => (Returned tt, (fst w, Connected telnet'))
        | (r, telnet') => (r, (fst w, Connected telnet'))
        end
    end.

Definition this : Eff World PioneerDevice := fun w => (Returned (fst w), w).

(** [ZONE_COMMANDS[self._zone].get(op)["COMMAND"]] *)
Definition zone_command (op : string) : Eff World string :=
  d <- this ;;
  zone_commands <- getitem ZONE_COMMANDS (_zone d) ;;
  get_item zone_commands op "COMMAND".

Definition turn_off : Eff World unit :=
  command <- zone_command "TURN_OFF" ;; telnet_command command.

Definition volume_up : Eff World unit :=
  command <- zone_command "VOL_UP" ;; telnet_command command.

Definition volume_down : Eff World unit :=
  command <- zone_command "VOL_DOWN" ;; telnet_command command.

Definition set_volume_level (volume : Q) : Eff World unit :=
  vol_command <- zone_command "VOL_LEVEL" ;;
  telnet_command
    (Py.format_03 (Py.round (Qmult volume (inject_Z MAX_VOLUME))) +:+ vol_command).

Definition mute_volume (mute : bool) : Eff World unit :=
  command <- (if mute then zone_command "UNMUTE_VOL" else zone_command "MUTE_VOL") ;;
  telnet_command command.

Definition turn_on : Eff World unit :=
  command <- zone_command "TURN_ON" ;; telnet_command command.

Definition select_source (source : string) : Eff World unit :=
  source_command <- zone_command "SELECT_SOURCE" ;;
  d <- this ;;
  telnet_command (Py.format_opt (_source_name_to_number d !! source) +:+ source_command).

(** ** Platform setup *)




(** ** Vocabulary of the statements *)

(** The action commands of [PioneerDevice]. *)
Inductive action : Type :=
| TurnOn
| TurnOff
| VolumeUp
| VolumeDown
| SetVolumeLevel (volume : Q)
| MuteVolume (mute : bool)
| SelectSource (source : string).

Definition perform (a : action) : Eff World unit :=
  match a with
  | TurnOn => turn_on
  | TurnOff => turn_off
  | VolumeUp => volume_up
  | VolumeDown => volume_down
  | SetVolumeLevel volume => set_volume_level volume
  | MuteVolume mute => mute_volume mute
  | SelectSource source => select_source source
  end.


(** What a query obtains on connection [t], and what it leaves of [t]. *)
Definition reply (command expected_prefix : string) (t : Telnet) : option string :=
  match fst (telnet_request command expected_prefix t) with
  | Returned r => r
  | Raised _ => None
  end.

Definition rest (command expected_prefix : string) (t : Telnet) : Telnet :=
  snd (telnet_request command expected_prefix t).

(** The wire texts of a query operation in a zone's command set. *)
Definition command_of (zone_commands : list (string * list (string * string)))
    (op : string) : string :=
  default "" (assoc op zone_commands ≫= assoc "COMMAND").

Definition prefix_of (zone_commands : list (string * list (string * string)))
    (op : string) : string :=
  default "" (assoc op zone_commands ≫= assoc "PREFIX").

(** The query for [op] gets no data on [t]: [None], or a falsy reply. *)
Definition no_data (zone_commands : list (string * list (string * string)))
    (op : string) (t : Telnet) : Prop :=
  Py.truthy (reply (command_of zone_commands op) (prefix_of zone_commands op) t) = false.

(** The instance and the connection once a prefix of the poll cycle ran. *)
Definition after {A : Type} (m : Eff Session A) (s : Session) : Session := snd (m s).

(** The instance that a method call leaves behind. *)
Definition device_after {A : Type} (r : outcome A * World) : PioneerDevice :=
  fst (snd r).

(** The instances a running integration can hold: a constructed one, and
    what poll cycles and action commands make of it, each on whatever
    connection it obtains. *)
Inductive reachable : PioneerDevice -> Prop :=
| reachable_init name host port timeout sources zone :
    reachable (init name host port timeout sources zone)
| reachable_update d net :
    reachable d -> reachable (device_after (update (d, net)))
| reachable_perform d net a :
    reachable d -> reachable (device_after (perform a (d, net))).

(** Every name-to-code entry has its code-to-name entry. *)
Definition names_resolve (d : PioneerDevice) : Prop :=
  forall name code,
    _source_name_to_number d !! name = Some code ->
    _source_number_to_name d !! code = Some name.

(** Every name that a code carries is a key of the name-to-code map. *)
Definition codes_named (d : PioneerDevice) : Prop :=
  forall code name,
    _source_number_to_name d !! code = Some name ->
    is_Some (_source_name_to_number d !! name).

Definition inverse_maps (d : PioneerDevice) : Prop :=
  forall name code,
    _source_name_to_number d !! name = Some code <->
    _source_number_to_name d !! code = Some name.

(** No two codes carry the same name. *)
Definition distinct_names (d : PioneerDevice) : Prop :=
  forall code code' name,
    _source_number_to_name d !! code = Some name ->
    _source_number_to_name d !! code' = Some name ->
    code = code'.

(** The key under which the learning pass files index [i]. *)
Definition source_key (i : Z) : string := Py.zfill 2 (Py.str_int i).

(** A line, as [telnet_request] sees it, does not start with the prefix. *)
Definition unrelated (expected_prefix line : string) : Prop :=
  Py.startswith (Py.strip line) expected_prefix = false.

Definition query_ops : list string := ["POWER"; "VOL"; "MUTE"; "SOURCE_NUM"].

(** A command set has the entries that a poll cycle subscripts. *)
Definition complete (zone_commands : list (string * list (string * string))) : Prop :=
  (forall op, In op query_ops ->
     is_Some (assoc op zone_commands ≫= assoc "COMMAND") /\
     is_Some (assoc op zone_commands ≫= assoc "PREFIX")) /\
  is_Some (assoc "MUTED_VALUE" zone_commands ≫= assoc "COMMAND").

(** Running [m] leaves [f] of the instance as it was, whether [m] returns
    or raises. *)
Definition keeps {X A : Type} (f : PioneerDevice -> X) (m : Eff Session A) : Prop :=
  forall s, f (fst (snd (m s))) = f (fst s).

(** The connection on which the volume, mute and source queries of a poll
    cycle are made, as the session reached just before each. *)
Definition before_volume (zone_commands : list (string * list (string * string)))
    (s : Session) : Session :=
  after (poll_power zone_commands) s.

Definition before_mute (zone_commands : list (string * list (string * string)))
    (s : Session) : Session :=
  after (poll_volume zone_commands) (before_volume zone_commands s).

Definition before_source (zone_commands : list (string * list (string * string)))
    (s : Session) : Session :=
  after learn_sources (after (poll_mute zone_commands) (before_mute zone_commands s)).

(** What a method call wrote to the connection it obtained. *)
Definition emitted {A : Type} (r : outcome A * World) : list string :=
  match snd (snd r) with
  | Connected t => written t
  | Refused => []
  end.

(** A wire command as written: the text and a carriage return. *)
Definition wire (command : string) : string := command +:+ String Py.CR "".

(** A fresh connection on which the peer sends [lines] and no write fails. *)
Definition scripted (lines : list string) : connect_result :=
  Connected (mkTelnet lines [] [] false).

(** The two source dictionaries of an instance. *)
Definition source_maps (d : PioneerDevice) : gmap string string * gmap string string :=
  (_source_name_to_number d, _source_number_to_name d).

(** Every entry of the source dictionaries of [d0] is an entry of [d]'s. *)
Definition extends (d0 d : PioneerDevice) : Prop :=
  _source_name_to_number d0 ⊆ _source_name_to_number d /\
  _source_number_to_name d0 ⊆ _source_number_to_name d.

(** Running [m] on an instance that satisfies [P] yields one that does. *)
Definition preserved {A : Type} (P : PioneerDevice -> Prop) (m : Eff Session A) : Prop :=
  forall s, P (fst s) -> P (fst (snd (m s))).

(** The request that the learning pass sends for index [i]. *)
Definition probe (i : Z) : string := "?RGB" +:+ source_key i.

(** * Properties *)

(** ** Request/response matching *)

Section Matching.

Variables (command expected_prefix : string).

Lemma write_outcome data t :
  (exists t', write data t = (Returned tt, t') /\ inbound t' = inbound t) \/
  (exists t', write data t = (Raised SocketTimeout, t') /\ inbound t' = inbound t).
Proof.
  unfold write. destruct (write_timeouts t) as [|[] ws]; eauto.
Qed.

Lemma read_matching_returns n t :
  exists r t', read_matching n expected_prefix t = (Returned r, t').
Proof.
  revert t. induction n as [|n IH]; intros t; simpl.
  - unfold ret. eauto.
  - unfold bind, read_until.
    destruct (inbound t) as [|line ls];
      match goal with
      | |- context [if ?b then _ else _] => destruct b
      end; unfold ret; eauto.
Qed.

Lemma telnet_request_returns t :
  exists r t', telnet_request command expected_prefix t = (Returned r, t').
Proof.
  unfold telnet_request.
  destruct (write_outcome (command +:+ String Py.CR "") t) as [(t' & -> & _)|(t' & -> & _)].
  - apply read_matching_returns.
  - eauto.
Qed.

Lemma telnet_request_eq t :
  telnet_request command expected_prefix t =
  (Returned (reply command expected_prefix t), rest command expected_prefix t).
Proof.
  unfold reply, rest.
  destruct (telnet_request_returns t) as (r & t' & ->). reflexivity.
Qed.

(** Skipping [length pre] unrelated lines uses up as many attempts. *)
Lemma read_matching_skip pre n t ws wr c :
  Forall (unrelated expected_prefix) pre ->
  read_matching (length pre + n) expected_prefix (mkTelnet (pre ++ t) ws wr c) =
  read_matching n expected_prefix (mkTelnet t ws wr c).
Proof.
  induction 1 as [|line pre Hline _ IH]; [reflexivity|].
  cbn [length Nat.add app read_matching].
  unfold bind at 1. cbn [read_until inbound write_timeouts written closed].
  unfold unrelated in Hline. rewrite Hline. exact IH.
Qed.

Lemma read_matching_hit n line t ws wr c :
  Py.startswith (Py.strip line) expected_prefix = true ->
  read_matching (S n) expected_prefix (mkTelnet (line :: t) ws wr c) =
  (Returned (Some (Py.strip line)), mkTelnet t ws wr c).
Proof.
  intros Hline. cbn [read_matching]. unfold bind.
  cbn [read_until inbound write_timeouts written closed].
  rewrite Hline. reflexivity.
Qed.

Lemma write_succeeds data t :
  head (write_timeouts t) <> Some true ->
  write data t =
  (Returned tt,
   mkTelnet (inbound t) (tail (write_timeouts t)) (written t ++ [data]) (closed t)).
Proof.
  unfold write. destruct (write_timeouts t) as [|[] ws]; simpl; congruence.
Qed.

(** A write that times out ends the query with no data and no read. *)
Lemma telnet_request_write_timeout t :
  head (write_timeouts t) = Some true ->
  fst (telnet_request command expected_prefix t) = Returned None /\
  inbound (snd (telnet_request command expected_prefix t)) = inbound t.
Proof.
  unfold telnet_request, write.
  destruct (write_timeouts t) as [|[] ws]; simpl; intros [=]. split; reflexivity.
Qed.

End Matching.

(** C6. A query whose write goes through reads at most three lines: when
    the inbound stream is [N] lines that do not start with the expected
    prefix followed by a line that does, the query returns that line (as
    stripped) and leaves the lines after it unread if [N < 3], and returns
    [None] if the three attempts were used up on unrelated lines. *)
Theorem telnet_request_first_match (command expected_prefix : string)
    (pre : list string) (line : string) (post : list string) (t : Telnet) :
  head (write_timeouts t) <> Some true ->
  inbound t = (pre ++ line :: post)%list ->
  Forall (unrelated expected_prefix) pre ->
  Py.startswith (Py.strip line) expected_prefix = true ->
  ((length pre < 3)%nat ->
   exists t', telnet_request command expected_prefix t
              = (Returned (Some (Py.strip line)), t')
              /\ inbound t' = post) /\
  ((3 <= length pre)%nat ->
   fst (telnet_request command expected_prefix t) = Returned None).
Proof.
  intros Hw Hin Hpre Hline.
  unfold telnet_request. rewrite (write_succeeds _ _ Hw), Hin. split; intros Hlen.
  - replace 3%nat with (length pre + S (2 - length pre))%nat by lia.
    rewrite read_matching_skip by assumption.
    rewrite read_matching_hit by assumption. eauto.
  - destruct pre as [|a [|b [|c pre]]]; simpl in Hlen; try lia.
    change (a :: b :: c :: pre) with ([a; b; c] ++ pre)%list in *.
    rewrite <- app_assoc.
    change 3%nat with (length [a; b; c] + 0)%nat.
    rewrite read_matching_skip; [reflexivity|].
    apply Forall_app in Hpre. tauto.
Qed.

Lemma telnet_request_first_match_witness :
  let t := mkTelnet ["VOL100"; "PWR0"; "MUT0"] [] [] false in
  (length ["VOL100"] < 3)%nat /\
  exists t', telnet_request "?P" "PWR" t = (Returned (Some "PWR0"), t')
             /\ inbound t' = ["MUT0"].
Proof.
  intros t. split; [simpl; lia|].
  refine (proj1 (telnet_request_first_match "?P" "PWR" ["VOL100"] "PWR0" ["MUT0"] t
                   _ _ _ _) _).
  - simpl. discriminate.
  - reflexivity.
  - repeat constructor.
  - reflexivity.
  - simpl. lia.
Defined.

(** ** The zone command table *)

Lemma zone_lookup_cases zone zone_commands :
  assoc zone ZONE_COMMANDS = Some zone_commands ->
  (zone = 1 /\ assoc 1 ZONE_COMMANDS = Some zone_commands) \/
  (zone = 2 /\ assoc 2 ZONE_COMMANDS = Some zone_commands).
Proof.
  unfold ZONE_COMMANDS at 1. cbn [assoc].
  intros E. repeat case_decide; subst; try discriminate; auto.
Qed.



Lemma zone_commands_complete zone zone_commands :
  assoc zone ZONE_COMMANDS = Some zone_commands -> complete zone_commands.
Proof.
  intros H.
  destruct (zone_lookup_cases _ _ H) as [[_ E]|[_ E]];
    injection E as <-; (split; [|eexists; reflexivity]);
    intros op [<-|[<-|[<-|[<-|[]]]]]; split; eexists; reflexivity.
Qed.

Lemma get_item_some {S : Type} zone_commands op key v :
  assoc op zone_commands ≫= assoc key = Some v ->
  @get_item S zone_commands op key = ret v.
Proof.
  unfold get_item, getitem.
  destruct (assoc op zone_commands) as [entry|]; simpl; [|discriminate].
  intros ->. reflexivity.
Qed.

Lemma get_item_command {S : Type} zone_commands op :
  complete zone_commands -> In op query_ops ->
  @get_item S zone_commands op "COMMAND" = ret (command_of zone_commands op).
Proof.
  intros [Hq _] Hop. destruct (Hq op Hop) as [[c Hc] _].
  unfold command_of. rewrite Hc. apply get_item_some, Hc.
Qed.

Lemma get_item_prefix {S : Type} zone_commands op :
  complete zone_commands -> In op query_ops ->
  @get_item S zone_commands op "PREFIX" = ret (prefix_of zone_commands op).
Proof.
  intros [Hq _] Hop. destruct (Hq op Hop) as [_ [p Hp]].
  unfold prefix_of. rewrite Hp. apply get_item_some, Hp.
Qed.

(** ** Frame rules for the attributes of the instance *)

Section Frame.

Context {X : Type} (f : PioneerDevice -> X).

Lemma keeps_ret {A : Type} (a : A) : keeps f (ret a).
Proof. intros s. reflexivity. Qed.

Lemma keeps_raise {A : Type} e : keeps f (@raise Session A e).
Proof. intros s. reflexivity. Qed.

Lemma keeps_self : keeps f self.
Proof. intros s. reflexivity. Qed.

Lemma keeps_bind {A B : Type} (m : Eff Session A) (k : A -> Eff Session B) :
  keeps f m -> (forall a, keeps f (k a)) -> keeps f (bind m k).
Proof.
  intros Hm Hk s. unfold bind. specialize (Hm s).
  destruct (m s) as [[a|e] s']; simpl in *.
  - rewrite Hk. exact Hm.
  - exact Hm.
Qed.

Lemma keeps_on_telnet {A : Type} (m : Eff Telnet A) : keeps f (on_telnet m).
Proof. intros s. unfold on_telnet. destruct (m (snd s)). reflexivity. Qed.

Lemma keeps_assign g : (forall d, f (g d) = f d) -> keeps f (assign g).
Proof. intros Hg s. simpl. apply Hg. Qed.

Lemma keeps_getitem {K V : Type} `{EqDecision K} (d : list (K * V)) k :
  keeps f (getitem d k).
Proof. unfold getitem. destruct (assoc k d); [apply keeps_ret|apply keeps_raise]. Qed.

Lemma keeps_get_item d op key : keeps f (get_item d op key).
Proof.
  unfold get_item. destruct (assoc op d); [apply keeps_getitem|apply keeps_raise].
Qed.

Lemma keeps_for_each {A : Type} (l : list A) body :
  (forall x, keeps f (body x)) -> keeps f (for_each l body).
Proof.
  intros Hb. induction l as [|x l IH]; simpl.
  - apply keeps_ret.
  - apply keeps_bind; auto.
Qed.

End Frame.

Ltac keeps_step :=
  first
    [ apply keeps_ret | apply keeps_raise | apply keeps_self
    | apply keeps_on_telnet | apply keeps_getitem | apply keeps_get_item
    | apply keeps_assign; intros ?; reflexivity
    | apply keeps_bind; [|intros ?]
    | apply keeps_for_each; intros ?
    | match goal with
      | |- keeps _ (match ?x with _ => _ end) => destruct x
      | |- keeps _ (if ?x then _ else _) => destruct x
      end ].

Ltac keeps_auto := repeat keeps_step.

Lemma poll_power_keeps_maps zc :
  keeps source_maps (poll_power zc).
Proof. unfold poll_power. keeps_auto. Qed.

Lemma poll_volume_keeps_maps zc :
  keeps source_maps (poll_volume zc).
Proof. unfold poll_volume. keeps_auto. Qed.

Lemma poll_mute_keeps_maps zc :
  keeps source_maps (poll_mute zc).
Proof. unfold poll_mute. keeps_auto. Qed.

Lemma poll_source_keeps_maps zc :
  keeps source_maps (poll_source zc).
Proof. unfold poll_source. keeps_auto. Qed.

(** ** The statements of the poll cycle, one by one *)

Ltac query_op := simpl; tauto.

Ltac run_query Hc :=
  rewrite ?(get_item_command _ _ Hc), ?(get_item_prefix _ _ Hc) by query_op;
  unfold bind, ret, raise, on_telnet, assign, self; cbn [fst snd];
  rewrite telnet_request_eq.

Lemma poll_power_eq zc d t :
  complete zc ->
  poll_power zc (d, t) =
  (Returned tt,
   (match reply (command_of zc "POWER") (prefix_of zc "POWER") t with
    | Some (String _ _ as pwstate) => set_pwstate pwstate d
    | _ => d
    end,
    rest (command_of zc "POWER") (prefix_of zc "POWER") t)).
Proof.
  intros Hc. unfold poll_power. run_query Hc.
  destruct (reply _ _ t) as [[|c s]|]; reflexivity.
Qed.

Lemma poll_volume_eq zc d t :
  complete zc ->
  poll_volume zc (d, t) =
  match reply (command_of zc "VOL") (prefix_of zc "VOL") t with
  | Some (String _ _ as volume_str) =>
      match Py.float (Py.slice_from 3 volume_str) with
      | Some x =>
          (Returned tt,
           (set_volume (Some (Py.float_div x MAX_VOLUME)) d,
            rest (command_of zc "VOL") (prefix_of zc "VOL") t))
      | None =>
          (Raised ValueError, (d, rest (command_of zc "VOL") (prefix_of zc "VOL") t))
      end
  | _ =>
      (Returned tt,
       (set_volume None d, rest (command_of zc "VOL") (prefix_of zc "VOL") t))
  end.
Proof.
  intros Hc. unfold poll_volume. run_query Hc.
  destruct (reply _ _ t) as [[|c s]|]; try reflexivity.
  destruct (Py.float _); reflexivity.
Qed.

Lemma poll_mute_eq zc d t :
  complete zc ->
  poll_mute zc (d, t) =
  (Returned tt,
   (set_muted
      match reply (command_of zc "MUTE") (prefix_of zc "MUTE") t with
      | Some (String _ _ as muted_value) =>
          Some (String.eqb muted_value (command_of zc "MUTED_VALUE"))
      | _ => None
      end d,
    rest (command_of zc "MUTE") (prefix_of zc "MUTE") t)).
Proof.
  intros Hc. unfold poll_mute. run_query Hc.
  destruct (reply _ _ t) as [[|c s]|]; try reflexivity.
  destruct Hc as [_ [v Hv]]. unfold command_of, getitem. rewrite Hv.
  destruct (assoc "MUTED_VALUE" zc) as [entry|]; simpl in Hv; [|discriminate].
  cbn [fst snd]. unfold ret. rewrite Hv. reflexivity.
Qed.

Lemma poll_source_eq zc d t :
  complete zc ->
  poll_source zc (d, t) =
  (Returned tt,
   (set_selected_source
      match reply (command_of zc "SOURCE_NUM") (prefix_of zc "SOURCE_NUM") t with
      | Some (String _ _ as source_number) =>
          _source_number_to_name d !! Py.slice_from 2 source_number
      | _ => None
      end d,
    rest (command_of zc "SOURCE_NUM") (prefix_of zc "SOURCE_NUM") t)).
Proof.
  intros Hc. unfold poll_source. run_query Hc.
  destruct (reply _ _ t) as [[|c s]|]; reflexivity.
Qed.

Lemma learn_source_eq i d t :
  learn_source i (d, t) =
  (Returned tt,
   (match reply ("?RGB" +:+ source_key i) "RGB" t with
    | Some (String _ _ as result) =>
        store_number_to_name (source_key i) (Py.slice_from 6 result)
          (store_name_to_number (Py.slice_from 6 result) (source_key i) d)
    | _ => d
    end,
    rest ("?RGB" +:+ source_key i) "RGB" t)).
Proof.
  unfold learn_source, source_key.
  unfold bind, ret, on_telnet, assign; cbn [fst snd].
  rewrite telnet_request_eq.
  destruct (reply _ _ t) as [[|c s]|]; reflexivity.
Qed.

Lemma for_each_returns {A : Type} (l : list A) (body : A -> Eff Session unit) s :
  (forall x s, fst (body x s) = Returned tt) ->
  for_each l body s = (Returned tt, after (for_each l body) s).
Proof.
  intros Hb. revert s. induction l as [|x l IH]; intros s; [reflexivity|].
  unfold after. cbn [for_each]. unfold bind.
  specialize (Hb x s). destruct (body x s) as [r s']. simpl in Hb. subst r.
  rewrite IH. reflexivity.
Qed.

Lemma learn_sources_returns s :
  learn_sources s = (Returned tt, after learn_sources s).
Proof.
  unfold after, learn_sources, bind, self.
  destruct (bool_decide _); [|reflexivity].
  rewrite for_each_returns; [reflexivity|].
  intros i [d t]. rewrite learn_source_eq. reflexivity.
Qed.

Lemma poll_power_returns zc s :
  complete zc -> poll_power zc s = (Returned tt, after (poll_power zc) s).
Proof. intros Hc. destruct s as [d t]. unfold after. rewrite poll_power_eq; auto. Qed.

Lemma poll_mute_returns zc s :
  complete zc -> poll_mute zc s = (Returned tt, after (poll_mute zc) s).
Proof. intros Hc. destruct s as [d t]. unfold after. rewrite poll_mute_eq; auto. Qed.

Lemma poll_source_returns zc s :
  complete zc -> poll_source zc s = (Returned tt, after (poll_source zc) s).
Proof. intros Hc. destruct s as [d t]. unfold after. rewrite poll_source_eq; auto. Qed.

(** The poll cycle once the zone's command set is found. *)
Lemma update_connected_eq zc d t :
  assoc (_zone d) ZONE_COMMANDS = Some zc ->
  update_connected (d, t) =
  (poll_power zc ;; poll_volume zc ;; poll_mute zc ;; learn_sources ;;
   poll_source zc ;; on_telnet close ;; ret true) (d, t).
Proof.
  intros Hz. unfold update_connected.
  unfold bind at 1 2. unfold self, getitem. cbn [fst snd]. rewrite Hz. reflexivity.
Qed.


Lemma update_Connected d t :
  update (d, Connected t) =
  (fst (update_connected (d, t)),
   (fst (snd (update_connected (d, t))), Connected (snd (snd (update_connected (d, t)))))).
Proof.
  unfold update. cbn [fst snd].
  destruct (update_connected (d, t)) as [r [d' t']]. reflexivity.
Qed.

(** From the volume query on, and from the mute query on. *)
Lemma poll_tail_returns zc s :
  complete zc ->
  (poll_mute zc ;; learn_sources ;; poll_source zc ;; on_telnet close ;; ret true) s =
  (Returned true,
   (fst (after (poll_source zc) (after learn_sources (after (poll_mute zc) s))),
    snd (close (snd (after (poll_source zc)
                        (after learn_sources (after (poll_mute zc) s))))))).
Proof.
  intros Hc. unfold bind at 1. rewrite poll_mute_returns by assumption.
  unfold bind at 1. rewrite learn_sources_returns.
  unfold bind at 1. rewrite poll_source_returns by assumption.
  reflexivity.
Qed.

(** ** Construction *)

(** C9. A freshly constructed instance stores the power code "PWR1", so
    its power-state accessor reports off, not unknown. *)
Theorem state_after_init name host port timeout sources zone :
  _pwstate (init name host port timeout sources zone) = "PWR1" /\
  state (init name host port timeout sources zone) = Some OFF.
Proof. split; reflexivity. Qed.

(** ** Action commands *)

Lemma zone_command_world op w : snd (zone_command op w) = w.
Proof.
  unfold zone_command, bind, this, get_item, getitem, ret, raise. cbn [fst snd].
  destruct (assoc (_zone (fst w)) ZONE_COMMANDS) as [zc|]; [|reflexivity].
  destruct (assoc op zc) as [entry|]; [|reflexivity].
  destruct (assoc "COMMAND" entry); reflexivity.
Qed.

Lemma telnet_command_device command w :
  device_after (telnet_command command w) = fst w.
Proof.
  unfold device_after, telnet_command. destruct (snd w) as [|telnet]; [reflexivity|].
  destruct ((write _ ;; read_very_eager ;; close) telnet) as [[u|[]] t']; reflexivity.
Qed.

Lemma command_then_send_device (m : Eff World string) (k : string -> string) w :
  snd (m w) = w ->
  device_after ((command <- m ;; telnet_command (k command)) w) = fst w.
Proof.
  intros Hm. unfold bind. destruct (m w) as [[c|e] w']; simpl in Hm; subst w'.
  - apply telnet_command_device.
  - reflexivity.
Qed.

Lemma perform_device (a : action) (w : World) :
  device_after (perform a w) = fst w.
Proof.
  destruct a as [| | | |volume|mute|source]; cbn [perform].
  - apply (command_then_send_device _ (fun c => c)), zone_command_world.
  - apply (command_then_send_device _ (fun c => c)), zone_command_world.
  - apply (command_then_send_device _ (fun c => c)), zone_command_world.
  - apply (command_then_send_device _ (fun c => c)), zone_command_world.
  - unfold set_volume_level.
    apply (command_then_send_device _
             (fun c => Py.format_03 (Py.round (Qmult volume (inject_Z MAX_VOLUME))) +:+ c)),
          zone_command_world.
  - unfold mute_volume.
    apply (command_then_send_device _ (fun c => c)).
    destruct mute; apply zone_command_world.
  - unfold select_source. unfold bind at 1.
    pose proof (zone_command_world "SELECT_SOURCE" w) as Hw.
    destruct (zone_command "SELECT_SOURCE" w) as [[c|e] w']; simpl in Hw; subst w';
      [|reflexivity].
    unfold bind, this. apply telnet_command_device.
Qed.

(** C10. No action command changes the instance: after [turn_on],
    [turn_off], [volume_up], [volume_down], [set_volume_level],
    [mute_volume] or [select_source], on any connection and whether the
    call returns or raises, every attribute (stored power code, volume,
    muted flag, selected source, both source maps) is what it was. *)
Theorem actions_keep_snapshot (a : action) (w : World) :
  device_after (perform a w) = fst w.
Proof. exact (perform_device a w). Qed.

Lemma set_volume_level_emits volume d t zc command :
  assoc (_zone d) ZONE_COMMANDS = Some zc ->
  assoc "VOL_LEVEL" zc ≫= assoc "COMMAND" = Some command ->
  head (write_timeouts t) <> Some true ->
  emitted (set_volume_level volume (d, Connected t)) =
  (written t ++
   [wire (Py.format_03 (Py.round (Qmult volume (inject_Z MAX_VOLUME))) +:+ command)])%list.
Proof.
  intros Hz Hc Hw.
  unfold set_volume_level, zone_command. unfold bind at 1 2 3. unfold this, getitem.
  cbn [fst snd]. rewrite Hz. unfold ret at 1.
  rewrite (get_item_some _ _ _ _ Hc). unfold ret at 1.
  unfold emitted, telnet_command. cbn [fst snd].
  unfold bind at 1. unfold wire. rewrite (write_succeeds _ _ Hw). reflexivity.
Qed.

(** C5, as the driver has it. [set_volume_level(0.5)] on a zone-2 instance
    whose connection is established and whose write goes through emits
    exactly "092ZV" and a carriage return: [round] takes the tie
    0.5 * 185 = 92.5 to the even integer 92. *)
Theorem set_volume_level_half_zone2 d t :
  _zone d = 2 ->
  head (write_timeouts t) <> Some true ->
  emitted (set_volume_level (1 # 2) (d, Connected t)) = (written t ++ [wire "092ZV"])%list.
Proof.
  intros Hz Hw.
  destruct (assoc 2 ZONE_COMMANDS) as [zc|] eqn:Hzc; [|discriminate].
  apply (set_volume_level_emits (1 # 2) d t zc "ZV"); try assumption.
  - rewrite Hz. exact Hzc.
  - injection Hzc as <-. reflexivity.
Qed.

Lemma set_volume_level_half_zone2_witness :
  let d := init "Pioneer AVR" "avr.local" 8102 500 [] 2 in
  let t := mkTelnet [] [] [] false in
  _zone d = 2 /\
  emitted (set_volume_level (1 # 2) (d, Connected t)) = [wire "092ZV"].
Proof.
  intros d t. split; [reflexivity|].
  apply (set_volume_level_half_zone2 d t); [reflexivity|].
  simpl. discriminate.
Defined.

(** C5, as stated, fails: on a zone-2 instance [set_volume_level(0.5)]
    does not emit "093ZV". *)
Lemma set_volume_level_half_zone2_not_093 :
  emitted (set_volume_level (1 # 2)
             (init "Pioneer AVR" "avr.local" 8102 500 [] 2, scripted []))
  <> [wire "093ZV"].
Proof. vm_compute. discriminate. Qed.

(** ** Zone identifiers *)




(** ** The result of a poll cycle *)

Lemma update_connected_result zc d t :
  assoc (_zone d) ZONE_COMMANDS = Some zc ->
  fst (update_connected (d, t)) =
  match fst (poll_volume zc (before_volume zc (d, t))) with
  | Returned _ => Returned true
  | Raised e => Raised e
  end.
Proof.
  intros Hz. pose proof (zone_commands_complete _ _ Hz) as Hc.
  rewrite (update_connected_eq zc) by assumption.
  unfold bind at 1. rewrite poll_power_returns by assumption.
  unfold bind at 1. unfold before_volume.
  destruct (poll_volume zc (after (poll_power zc) (d, t))) as [[u|e] s2]; [|reflexivity].
  rewrite poll_tail_returns by assumption. reflexivity.
Qed.




(** ** What a poll cycle does to each field *)

Lemma after_power_keeps_pwstate zc :
  keeps _pwstate
    (poll_volume zc ;; poll_mute zc ;; learn_sources ;; poll_source zc ;;
     on_telnet close ;; ret true).
Proof.
  unfold poll_volume, poll_mute, learn_sources, learn_source, poll_source. keeps_auto.
Qed.

Lemma after_volume_keeps_volume zc :
  keeps _volume
    (poll_mute zc ;; learn_sources ;; poll_source zc ;; on_telnet close ;; ret true).
Proof.
  unfold poll_mute, learn_sources, learn_source, poll_source. keeps_auto.
Qed.

Lemma learn_sources_keeps_muted : keeps _muted learn_sources.
Proof. unfold learn_sources, learn_source. keeps_auto. Qed.

Lemma poll_source_keeps_muted zc : keeps _muted (poll_source zc).
Proof. unfold poll_source. keeps_auto. Qed.

Lemma falsy_reply r :
  Py.truthy r = false -> r = None \/ r = Some "".
Proof. destruct r as [[|c s]|]; simpl; intros H; try discriminate; auto. Qed.

(** The stored power code after a poll is the power reply, if there was
    one, and the previous code otherwise. *)
Lemma update_pwstate zc d t :
  assoc (_zone d) ZONE_COMMANDS = Some zc ->
  _pwstate (device_after (update (d, Connected t))) =
  match reply (command_of zc "POWER") (prefix_of zc "POWER") t with
  | Some (String _ _ as pwstate) => pwstate
  | _ => _pwstate d
  end.
Proof.
  intros Hz. pose proof (zone_commands_complete _ _ Hz) as Hc.
  unfold device_after. rewrite update_Connected. cbn [fst snd].
  rewrite (update_connected_eq zc) by assumption.
  unfold bind at 1. rewrite poll_power_returns by assumption.
  rewrite after_power_keeps_pwstate.
  unfold after. rewrite poll_power_eq by assumption. cbn [fst snd].
  destruct (reply _ _ t) as [[|c s]|]; reflexivity.
Qed.

Lemma update_volume_no_data zc d t :
  assoc (_zone d) ZONE_COMMANDS = Some zc ->
  no_data zc "VOL" (snd (before_volume zc (d, t))) ->
  _volume (device_after (update (d, Connected t))) = None.
Proof.
  intros Hz Hno. pose proof (zone_commands_complete _ _ Hz) as Hc.
  unfold device_after. rewrite update_Connected. cbn [fst snd].
  rewrite (update_connected_eq zc) by assumption.
  unfold bind at 1. rewrite poll_power_returns by assumption.
  fold (before_volume zc (d, t)).
  destruct (before_volume zc (d, t)) as [d1 t1]. cbn [snd] in Hno.
  unfold bind at 1. rewrite poll_volume_eq by assumption.
  destruct (falsy_reply _ Hno) as [-> | ->];
    rewrite after_volume_keeps_volume; reflexivity.
Qed.

(** A poll that returns [True] ran to its end. *)
Lemma update_completed zc d t :
  assoc (_zone d) ZONE_COMMANDS = Some zc ->
  fst (update (d, Connected t)) = Returned true ->
  device_after (update (d, Connected t)) =
  fst (after (poll_source zc) (before_source zc (d, t))).
Proof.
  intros Hz Hret. pose proof (zone_commands_complete _ _ Hz) as Hc.
  rewrite update_Connected in Hret. cbn [fst] in Hret.
  rewrite (update_connected_result zc) in Hret by assumption.
  unfold device_after. rewrite update_Connected. cbn [fst snd].
  rewrite (update_connected_eq zc) by assumption.
  unfold bind at 1. rewrite poll_power_returns by assumption.
  unfold before_source, before_mute. fold (before_volume zc (d, t)) in *.
  unfold bind at 1. unfold after at 4.
  destruct (poll_volume zc (before_volume zc (d, t))) as [[u|e] s2];
    [|discriminate Hret].
  rewrite poll_tail_returns by assumption. reflexivity.
Qed.

(** C2, as the driver has it. In a poll cycle of a supported zone on an
    established connection, a power query that gets no data leaves the
    stored power code, and so the reported power state, as it was. A
    volume query that gets no data sets the volume to [None]; and, when
    the cycle runs to its end, a mute query or a source query that gets no
    data sets the muted flag, or the selected source, to [None]. The
    previous volume, muted flag and source are not kept. *)
Theorem update_no_data (d : PioneerDevice) (t : Telnet) zc :
  assoc (_zone d) ZONE_COMMANDS = Some zc ->
  let d' := device_after (update (d, Connected t)) in
  (no_data zc "POWER" t -> _pwstate d' = _pwstate d /\ state d' = state d) /\
  (no_data zc "VOL" (snd (before_volume zc (d, t))) -> _volume d' = None) /\
  (fst (update (d, Connected t)) = Returned true ->
   no_data zc "MUTE" (snd (before_mute zc (d, t))) -> _muted d' = None) /\
  (fst (update (d, Connected t)) = Returned true ->
   no_data zc "SOURCE_NUM" (snd (before_source zc (d, t))) ->
   _selected_source d' = None).
Proof.
  intros Hz d'. pose proof (zone_commands_complete _ _ Hz) as Hc.
  split; [|split; [|split]].
  - intros Hno.
    assert (Hpw : _pwstate d' = _pwstate d).
    { unfold d'. rewrite (update_pwstate zc) by assumption.
      destruct (falsy_reply _ Hno) as [-> | ->]; reflexivity. }
    split; [exact Hpw|]. unfold state. rewrite Hpw. reflexivity.
  - apply update_volume_no_data. exact Hz.
  - intros Hret Hno. unfold d'. rewrite (update_completed zc) by assumption.
    unfold before_source, after.
    rewrite poll_source_keeps_muted, learn_sources_keeps_muted.
    destruct (before_mute zc (d, t)) as [d2 t2]. cbn [snd] in Hno.
    rewrite poll_mute_eq by assumption. cbn [fst snd].
    destruct (falsy_reply _ Hno) as [-> | ->]; reflexivity.
  - intros Hret Hno. unfold d'. rewrite (update_completed zc) by assumption.
    destruct (before_source zc (d, t)) as [d4 t4]. cbn [snd] in Hno.
    unfold after. rewrite poll_source_eq by assumption. cbn [fst snd].
    destruct (falsy_reply _ Hno) as [-> | ->]; reflexivity.
Qed.

Lemma update_no_data_witness :
  let d := init "Pioneer AVR" "avr.local" 8102 500 ["DVD"] 1 in
  let t := mkTelnet [] [] [] false in
  let d' := device_after (update (d, Connected t)) in
  (_pwstate d' = _pwstate d /\ state d' = state d) /\
  _volume d' = None /\ _muted d' = None /\ _selected_source d' = None.
Proof.
  intros d t d'.
  destruct (assoc 1 ZONE_COMMANDS) as [zc|] eqn:Hzc; [|discriminate Hzc].
  destruct (update_no_data d t zc Hzc) as (Hp & Hv & Hm & Hs).
  injection Hzc as <-.
  split; [apply Hp; reflexivity|].
  split; [apply Hv; reflexivity|].
  split; [apply Hm; reflexivity | apply Hs; reflexivity].
Defined.

(** C2, as stated, fails: a zone-1 instance that has learned volume
    100/185, muted and source "DVD" from one poll loses all three in the
    next poll when nothing answers. *)
Lemma update_no_data_resets_fields :
  let d0 := init "Pioneer AVR" "avr.local" 8102 500 ["DVD"] 1 in
  let d1 := device_after (update (d0, scripted ["PWR0"; "VOL100"; "MUT0"; "FN04"])) in
  let d2 := device_after (update (d1, scripted [])) in
  (_volume d1 = Some (Py.PFin (100 # 185)) /\ _volume d2 = None) /\
  (_muted d1 = Some true /\ _muted d2 = None) /\
  (_selected_source d1 = Some "DVD" /\ _selected_source d2 = None).
Proof. vm_compute. repeat split. Qed.

(** ** Power state *)

(** C3, as the driver has it. In a poll cycle of a supported zone on an
    established connection, a power query that gets no data leaves the
    reported power state as it was: observed on, then no reply, is still
    on. In zone 1 the reply "PWR0" yields on and the replies "PWR1" and
    "PWR2" yield off; any other reply that starts with "PWR" is stored
    and the reported state becomes unknown. *)
Theorem update_power_state (d : PioneerDevice) (t : Telnet) zc :
  assoc (_zone d) ZONE_COMMANDS = Some zc ->
  let d' := device_after (update (d, Connected t)) in
  let r := reply (command_of zc "POWER") (prefix_of zc "POWER") t in
  (Py.truthy r = false -> state d' = state d) /\
  (state d = Some ON -> Py.truthy r = false -> state d' = Some ON) /\
  (_zone d = 1 ->
   Py.truthy r = true -> Py.startswith (default "" r) "PWR" = true) /\
  (_zone d = 1 ->
   (r = Some "PWR0" -> state d' = Some ON) /\
   (r = Some "PWR1" \/ r = Some "PWR2" -> state d' = Some OFF) /\
   (forall s, r = Some s -> s <> "" ->
              s <> "PWR0" -> s <> "PWR1" -> s <> "PWR2" -> state d' = None)).
Proof.
  intros Hz d' r.
  assert (Hpw : _pwstate d' =
                match r with Some (String _ _ as s) => s | _ => _pwstate d end)
    by (apply update_pwstate; exact Hz).
  assert (Hmiss : Py.truthy r = false -> state d' = state d).
  { intros Hno. unfold state. rewrite Hpw.
    destruct (falsy_reply _ Hno) as [-> | ->]; reflexivity. }
  split; [exact Hmiss|]. split; [intros Hon Hno; rewrite Hmiss; assumption|]. split.
  - intros H1 Hr. rewrite H1 in Hz. injection Hz as <-.
    subst r. unfold reply in *.
    change (command_of _ "POWER") with "?P" in *.
    change (prefix_of _ "POWER") with "PWR" in *.
    unfold telnet_request in *.
    destruct (write_outcome ("?P" +:+ String Py.CR "") t) as [(t' & Hw & _)|(t' & Hw & _)];
      rewrite Hw in *; [|discriminate Hr].
    clear Hw Hpw Hmiss d'. revert Hr. generalize 3%nat as n. intros n. revert t'.
    induction n as [|n IH]; intros t'; [discriminate|].
    cbn [read_matching]. unfold bind, read_until.
    destruct (inbound t') as [|line ls]; cbn [fst snd].
    + destruct (Py.startswith (Py.strip "") "PWR") eqn:E; [discriminate E|]. apply IH.
    + destruct (Py.startswith (Py.strip line) "PWR") eqn:E; [|apply IH].
      intros _. exact E.
  - intros _. unfold state. rewrite Hpw. repeat split.
    + intros ->. reflexivity.
    + intros [-> | ->]; reflexivity.
    + intros s -> Hs H0 H1 H2. destruct s as [|c s]; [congruence|].
      apply String.eqb_neq in H0, H1, H2. rewrite H2, H1, H0. reflexivity.
Qed.

Lemma update_power_state_witness :
  let d := init "Pioneer AVR" "avr.local" 8102 500 ["DVD"] 1 in
  let d_on := device_after (update (d, scripted ["PWR0"])) in
  state d_on = Some ON /\
  state (device_after (update (d_on, scripted ["VOL100"; "MUT0"]))) = Some ON.
Proof.
  intros d d_on.
  assert (Hon : state d_on = Some ON) by reflexivity.
  split; [exact Hon|].
  destruct (assoc 1 ZONE_COMMANDS) as [zc|] eqn:Hzc; [|discriminate Hzc].
  refine (proj1 (proj2 (update_power_state d_on
            (mkTelnet ["VOL100"; "MUT0"] [] [] false) zc Hzc)) Hon _).
  injection Hzc as <-. reflexivity.
Defined.

(** C3, as stated, fails: a zone-1 instance that has observed on reports
    unknown, not on, after a poll whose power reply is the malformed line
    "PWR". *)
Lemma update_malformed_power_reply_unknown :
  let d := init "Pioneer AVR" "avr.local" 8102 500 ["DVD"] 1 in
  let d_on := device_after (update (d, scripted ["PWR0"])) in
  state d_on = Some ON /\
  state (device_after (update (d_on, scripted ["PWR"]))) = None.
Proof. vm_compute. split; reflexivity. Qed.

(** ** Volume *)

Lemma round_error (x : Q) : (Qabs (inject_Z (Py.round x) - x) <= 1 # 2)%Q.
Proof.
  unfold Py.round.
  pose proof (Qfloor_le x) as Hlo. pose proof (Qlt_floor x) as Hhi.
  rewrite inject_Z_plus in Hhi. change (inject_Z 1) with 1%Q in Hhi.
  generalize dependent (Qfloor x). intros n Hlo Hhi.
  destruct (Qcompare (x - inject_Z n) (1 # 2)) eqn:E.
  - apply Qeq_alt in E. destruct (Z.even n).
    + apply Qabs_Qle_condition. split; lra.
    + rewrite inject_Z_plus. change (inject_Z 1) with 1%Q.
      apply Qabs_Qle_condition. split; lra.
  - apply Qlt_alt in E. apply Qabs_Qle_condition. split; lra.
  - apply Qgt_alt in E. rewrite inject_Z_plus. change (inject_Z 1) with 1%Q.
    apply Qabs_Qle_condition. split; lra.
Qed.

Lemma round_bounds (f : Q) :
  (0 <= f <= 1)%Q -> 0 <= Py.round (f * inject_Z MAX_VOLUME) <= MAX_VOLUME.
Proof.
  intros [H0 H1].
  pose proof (round_error (f * inject_Z MAX_VOLUME)) as Herr.
  apply Qabs_Qle_condition in Herr. destruct Herr as [Hlo Hhi].
  change (inject_Z MAX_VOLUME) with 185%Q in *.
  generalize dependent (Py.round (f * 185)). intros n Hlo Hhi.
  assert (Hn0 : (inject_Z (-1) < inject_Z n)%Q) by (change (inject_Z (-1)) with (-1)%Q; lra).
  assert (Hn1 : (inject_Z n < inject_Z 186)%Q) by (change (inject_Z 186) with 186%Q; lra).
  rewrite <- Zlt_Qlt in Hn0, Hn1. unfold MAX_VOLUME. lia.
Qed.

(** Every three-digit wire value decodes, in zone 1, to itself. *)
Lemma zone1_decodes_wire_value n :
  0 <= n <= MAX_VOLUME ->
  exists q, Py.float (Py.slice_from 3 ("VOL" +:+ Py.format_03 n)) = Some (Py.PFin q)
            /\ (q == inject_Z n)%Q.
Proof.
  intros Hn.
  assert (Hall : forallb
            (fun n => match Py.float (Py.slice_from 3 ("VOL" +:+ Py.format_03 n)) with
                      | Some (Py.PFin q) => Qeq_bool q (inject_Z n)
                      | _ => false
                      end) (range (MAX_VOLUME + 1)) = true) by (vm_compute; reflexivity).
  rewrite forallb_forall in Hall. specialize (Hall n).
  assert (Hin : In n (range (MAX_VOLUME + 1))).
  { unfold range. rewrite <- (Z2Nat.id n) by lia.
    apply in_map, in_seq. unfold MAX_VOLUME in *. lia. }
  apply Hall in Hin.
  destruct (Py.float _) as [[q| |]|]; try discriminate Hin.
  exists q. split; [reflexivity|]. apply Qeq_bool_eq, Hin.
Qed.

Lemma update_volume_data zc d t c v x :
  assoc (_zone d) ZONE_COMMANDS = Some zc ->
  reply (command_of zc "VOL") (prefix_of zc "VOL") (snd (before_volume zc (d, t)))
  = Some (String c v) ->
  Py.float (Py.slice_from 3 (String c v)) = Some x ->
  _volume (device_after (update (d, Connected t))) = Some (Py.float_div x MAX_VOLUME).
Proof.
  intros Hz Hr Hx. pose proof (zone_commands_complete _ _ Hz) as Hc.
  unfold device_after. rewrite update_Connected. cbn [fst snd].
  rewrite (update_connected_eq zc) by assumption.
  unfold bind at 1. rewrite poll_power_returns by assumption.
  fold (before_volume zc (d, t)).
  destruct (before_volume zc (d, t)) as [d1 t1]. cbn [snd] in Hr.
  unfold bind at 1. rewrite poll_volume_eq by assumption. rewrite Hr, Hx.
  rewrite after_volume_keeps_volume. reflexivity.
Qed.

(** In zone 1 the volume round trip holds: for a fraction [f] in [0, 1],
    [set_volume_level(f)] emits the three-digit wire value
    [round(f * 185)] before "VL", and a poll whose volume reply echoes
    that value after "VOL" stores a volume within 1/185 of [f]. *)
Lemma zone1_volume_round_trip (f : Q) :
  (0 <= f <= 1)%Q ->
  let n := Py.round (f * inject_Z MAX_VOLUME) in
  0 <= n <= MAX_VOLUME /\
  (forall d t,
     _zone d = 1 -> head (write_timeouts t) <> Some true ->
     emitted (set_volume_level f (d, Connected t))
     = (written t ++ [wire (Py.format_03 n +:+ "VL")])%list) /\
  (forall d t zc,
     _zone d = 1 -> assoc 1 ZONE_COMMANDS = Some zc ->
     reply "?V" "VOL" (snd (before_volume zc (d, t))) = Some ("VOL" +:+ Py.format_03 n) ->
     exists q, _volume (device_after (update (d, Connected t))) = Some (Py.PFin q)
               /\ (Qabs (q - f) <= 1 # 185)%Q).
Proof.
  intros Hf n. pose proof (round_bounds f Hf) as Hn. fold n in Hn.
  split; [exact Hn|]. split.
  - intros d t Hz Hw.
    destruct (assoc 1 ZONE_COMMANDS) as [zc|] eqn:Hzc; [|discriminate Hzc].
    apply (set_volume_level_emits f d t zc "VL"); try assumption.
    + rewrite Hz. exact Hzc.
    + injection Hzc as <-. reflexivity.
  - intros d t zc Hz Hzc Hr.
    destruct (zone1_decodes_wire_value n Hn) as (x & Hx & Hxn).
    exists (x / inject_Z MAX_VOLUME)%Q. split.
    + change (Py.PFin (x / inject_Z MAX_VOLUME)) with (Py.float_div (Py.PFin x) MAX_VOLUME).
      apply (update_volume_data zc d t "V" ("OL" +:+ Py.format_03 n)).
      * rewrite Hz. exact Hzc.
      * injection Hzc as <-. exact Hr.
      * exact Hx.
    + pose proof (round_error (f * inject_Z MAX_VOLUME)) as Herr. fold n in Herr.
      rewrite <- Hxn in Herr. change (inject_Z MAX_VOLUME) with 185%Q in *.
      apply Qabs_Qle_condition in Herr. apply Qabs_Qle_condition.
      unfold Qdiv. change (/ 185)%Q with (1 # 185)%Q.
      split; lra.
Qed.

(** C4 at a failing input. On a zone-2 instance [set_volume_level(1.0)]
    emits "185ZV"; the volume reply that echoes the wire value 185 in
    zone 2, "ZV185", is cut after its third character and decodes to
    85/185, which is further than 1/185 from 1. (Zone 1 does what the
    claim says: [zone1_volume_round_trip].) *)
Theorem zone2_volume_echo_185_decodes_85 :
  let d := init "Pioneer AVR" "avr.local" 8102 500 ["DVD"] 2 in
  emitted (set_volume_level 1 (d, scripted [])) = [wire "185ZV"] /\
  _volume (device_after (update (d, scripted ["APR0"; "ZV185"])))
  = Some (Py.PFin (85 # 185)) /\
  ~ (Qabs ((85 # 185) - 1) <= 1 # 185)%Q.
Proof.
  intros d. split; [reflexivity|]. split; [reflexivity|].
  vm_compute. intros H. apply H. reflexivity.
Qed.

(** ** Source dictionaries *)

Lemma fold_insert_lookup (items : list (string * string)) (m : gmap string string) k v :
  List.NoDup (map fst items) ->
  fold_left (fun m kv => <[fst kv := snd kv]> m) items m !! k = Some v <->
  In (k, v) items \/ (~ In k (map fst items) /\ m !! k = Some v).
Proof.
  revert m. induction items as [|[k0 v0] items IH]; intros m Hnd; cbn [fold_left map In fst snd].
  - tauto.
  - inversion Hnd as [|? ? Hk0 Hnd']; subst. rewrite IH by assumption.
    destruct (decide (k = k0)) as [->|Hne].
    + rewrite lookup_insert_eq. split.
      * intros [Hin|[_ [= ->]]]; [|auto].
        exfalso. apply Hk0. change k0 with (fst (k0, v)). apply in_map, Hin.
      * intros [[[= ->]|Hin]|[Hnot _]]; [auto| |tauto].
        exfalso. apply Hk0. change k0 with (fst (k0, v)). apply in_map, Hin.
    + rewrite lookup_insert_ne by congruence. split.
      * intros [Hin|[Hnot Hm]]; [auto|]. right. split; [|exact Hm]. intros [Heq|Hin]; [congruence|tauto].
      * intros [[[= -> ->]|Hin]|[Hnot Hm]]; [congruence|auto|]. right. split; [tauto|exact Hm].
Qed.

Lemma dict_of_items_lookup items k v :
  List.NoDup (map fst items) ->
  dict_of_items items !! k = Some v <-> In (k, v) items.
Proof.
  intros Hnd. unfold dict_of_items. rewrite fold_insert_lookup by assumption.
  rewrite lookup_empty. split; [intros [H|[_ H]]; [exact H|discriminate H] | auto].
Qed.

Lemma NoDup_map_filter {A B : Type} (f : A -> B) (P : A -> bool) (l : list A) :
  List.NoDup (map f l) -> List.NoDup (map f (List.filter P l)).
Proof.
  induction l as [|a l IH]; intros Hnd; [exact Hnd|].
  cbn [map] in Hnd. inversion Hnd as [|? ? Ha Hnd']; subst.
  cbn [List.filter]. destruct (P a); [|auto].
  cbn [map]. constructor; [|auto].
  intros Hin. apply Ha. apply in_map_iff in Hin as (x & Hx & Hin).
  apply List.filter_In in Hin as [Hin _]. rewrite <- Hx. apply in_map, Hin.
Qed.

Lemma DEFAULT_SOURCES_names_distinct : List.NoDup (map fst DEFAULT_SOURCES).
Proof. apply NoDup_ListNoDup. refine (bool_decide_unpack _ _). vm_compute. exact I. Qed.

Lemma DEFAULT_SOURCES_codes_distinct : List.NoDup (map snd DEFAULT_SOURCES).
Proof. apply NoDup_ListNoDup. refine (bool_decide_unpack _ _). vm_compute. exact I. Qed.

Lemma source_keys_distinct : List.NoDup (map source_key (range MAX_SOURCE_NUMBERS)).
Proof. apply NoDup_ListNoDup. refine (bool_decide_unpack _ _). vm_compute. exact I. Qed.

Lemma init_inverse_maps name host port timeout sources zone :
  inverse_maps (init name host port timeout sources zone).
Proof.
  intros k v. cbn [init _source_name_to_number _source_number_to_name].
  rewrite !dict_of_items_lookup.
  - rewrite in_map_iff. split.
    + intros Hin. exists (k, v). auto.
    + intros ([k' v'] & [= -> ->] & Hin). exact Hin.
  - rewrite map_map. cbn [swap_item fst snd].
    apply (NoDup_map_filter snd), DEFAULT_SOURCES_codes_distinct.
  - apply (NoDup_map_filter fst), DEFAULT_SOURCES_names_distinct.
Qed.

(** *** The learning pass *)

Lemma preserved_bind {A B : Type} P (m : Eff Session A) (k : A -> Eff Session B) :
  preserved P m -> (forall a, preserved P (k a)) -> preserved P (bind m k).
Proof.
  intros Hm Hk s HP. unfold bind. specialize (Hm s HP).
  destruct (m s) as [[a|e] s']; [apply Hk|]; exact Hm.
Qed.

Lemma keeps_preserved {A : Type} (P : PioneerDevice -> Prop) (m : Eff Session A) :
  (forall d d', source_maps d' = source_maps d -> P d -> P d') ->
  keeps source_maps m -> preserved P m.
Proof. intros HP Hm s Hs. eapply HP; [apply Hm|exact Hs]. Qed.

Lemma after_for_each_app {A : Type} (l1 l2 : list A) (body : A -> Eff Session unit) s :
  (forall x s, fst (body x s) = Returned tt) ->
  after (for_each (l1 ++ l2)%list body) s =
  after (for_each l2 body) (after (for_each l1 body) s).
Proof.
  intros Hb. revert s. induction l1 as [|x l1 IH]; intros s; [reflexivity|].
  unfold after at 1 3. cbn [app for_each]. unfold bind.
  specialize (Hb x s). destruct (body x s) as [r s']. simpl in Hb. subst r.
  apply IH.
Qed.

Lemma learn_source_returns i s : fst (learn_source i s) = Returned tt.
Proof. destruct s as [d t]. rewrite learn_source_eq. reflexivity. Qed.

Lemma after_learn_cons i l s :
  after (for_each (i :: l) learn_source) s =
  after (for_each l learn_source) (after (learn_source i) s).
Proof.
  unfold after. cbn [for_each]. unfold bind.
  pose proof (learn_source_returns i s) as H.
  destruct (learn_source i s) as [r s']. simpl in H. subst r. reflexivity.
Qed.

Lemma learn_step_other_code i s code :
  source_key i <> code ->
  _source_number_to_name (fst (after (learn_source i) s)) !! code =
  _source_number_to_name (fst s) !! code.
Proof.
  intros Hne. destruct s as [d t]. unfold after. rewrite learn_source_eq. cbn [fst snd].
  destruct (reply _ _ t) as [[|c r]|]; try reflexivity.
  cbn [store_number_to_name _source_number_to_name].
  apply lookup_insert_ne, Hne.
Qed.

(** A pass over [l] leaves the codes that are not keys of [l] alone. *)
Lemma learn_other_codes l s code :
  (forall i, In i l -> source_key i <> code) ->
  _source_number_to_name (fst (after (for_each l learn_source) s)) !! code =
  _source_number_to_name (fst s) !! code.
Proof.
  revert s. induction l as [|i l IH]; intros s Hl; [reflexivity|].
  rewrite after_learn_cons, IH by (intros j Hj; apply Hl; right; exact Hj).
  apply learn_step_other_code, Hl. left. reflexivity.
Qed.

(** Filing a name under a code that is free keeps the dictionaries linked. *)
Lemma store_pair_linked name code d :
  _source_number_to_name d !! code = None ->
  names_resolve d -> codes_named d ->
  names_resolve (store_number_to_name code name (store_name_to_number name code d)) /\
  codes_named (store_number_to_name code name (store_name_to_number name code d)).
Proof.
  intros Hfree Hnr Hcn. split.
  - intros n c. cbn [store_number_to_name store_name_to_number
                     _source_name_to_number _source_number_to_name].
    destruct (decide (n = name)) as [->|Hn].
    + rewrite lookup_insert_eq. intros [= <-]. apply lookup_insert_eq.
    + rewrite lookup_insert_ne by congruence. intros Hc.
      rewrite lookup_insert_ne; [apply Hnr, Hc|].
      intros <-. apply Hnr in Hc. congruence.
  - intros c n. cbn [store_number_to_name store_name_to_number
                     _source_name_to_number _source_number_to_name].
    destruct (decide (c = code)) as [->|Hc].
    + rewrite lookup_insert_eq. intros [= <-]. rewrite lookup_insert_eq. eauto.
    + rewrite lookup_insert_ne by congruence. intros Hn.
      destruct (decide (n = name)) as [->|Hne].
      * rewrite lookup_insert_eq. eauto.
      * rewrite lookup_insert_ne by congruence. apply Hcn in Hn. exact Hn.
Qed.

Lemma learn_pass_linked l s :
  List.NoDup (map source_key l) ->
  (forall i, In i l -> _source_number_to_name (fst s) !! source_key i = None) ->
  names_resolve (fst s) -> codes_named (fst s) ->
  names_resolve (fst (after (for_each l learn_source) s)) /\
  codes_named (fst (after (for_each l learn_source) s)).
Proof.
  revert s. induction l as [|i l IH]; intros s Hnd Hfree Hnr Hcn; [auto|].
  cbn [map] in Hnd. inversion Hnd as [|? ? Hi Hnd']; subst.
  rewrite after_learn_cons.
  assert (Hstep : names_resolve (fst (after (learn_source i) s)) /\
                  codes_named (fst (after (learn_source i) s))).
  { destruct s as [d t]. unfold after. rewrite learn_source_eq. cbn [fst snd].
    destruct (reply _ _ t) as [[|c r]|]; auto.
    apply store_pair_linked; auto. apply Hfree. left. reflexivity. }
  apply IH; try tauto.
  intros j Hj. rewrite learn_step_other_code; [apply Hfree; right; exact Hj|].
  intros Heq. apply Hi. rewrite Heq. apply in_map, Hj.
Qed.

(** A learning pass from empty dictionaries. *)
Lemma learn_sources_linked s :
  _source_number_to_name (fst s) = ∅ ->
  names_resolve (fst s) -> codes_named (fst s) ->
  names_resolve (fst (after learn_sources s)) /\
  codes_named (fst (after learn_sources s)).
Proof.
  intros Hempty Hnr Hcn. unfold after, learn_sources, bind, self. cbn [fst snd].
  destruct (bool_decide _); [|auto].
  apply learn_pass_linked; auto using source_keys_distinct.
  intros i _. rewrite Hempty. apply lookup_empty.
Qed.

Lemma codes_named_empty d :
  codes_named d -> _source_name_to_number d = ∅ -> _source_number_to_name d = ∅.
Proof.
  intros Hcn Hempty. apply map_empty. intros code.
  destruct (_source_number_to_name d !! code) as [name|] eqn:E; [|reflexivity].
  apply Hcn in E. rewrite Hempty, lookup_empty in E. destruct E as [? [=]].
Qed.

(** What a poll cycle maintains: the dictionaries stay linked and keep
    the entries they had in [d0]. *)
Lemma learn_sources_preserved d0 :
  preserved (fun d => names_resolve d /\ codes_named d /\ extends d0 d) learn_sources.
Proof.
  intros s (Hnr & Hcn & Hext).
  destruct (decide (_source_name_to_number (fst s) = ∅)) as [Hempty|Hnonempty].
  - pose proof (codes_named_empty _ Hcn Hempty) as Hempty'.
    destruct (learn_sources_linked s Hempty' Hnr Hcn) as [Hnr' Hcn'].
    split; [exact Hnr'|]. split; [exact Hcn'|].
    destruct Hext as [H1 H2]. rewrite Hempty in H1. rewrite Hempty' in H2.
    split; (etrans; [eassumption|apply map_empty_subseteq]).
  - unfold learn_sources, bind, self. cbn [fst snd].
    rewrite bool_decide_eq_false_2 by assumption. auto.
Qed.

Lemma update_connected_preserved d0 :
  preserved (fun d => names_resolve d /\ codes_named d /\ extends d0 d) update_connected.
Proof.
  assert (Hmaps : forall d d', source_maps d' = source_maps d ->
            names_resolve d /\ codes_named d /\ extends d0 d ->
            names_resolve d' /\ codes_named d' /\ extends d0 d').
  { intros d d' [= H1 H2]. unfold names_resolve, codes_named, extends.
    rewrite H1, H2. auto. }
  unfold update_connected.
  repeat first
    [ apply learn_sources_preserved
    | apply (keeps_preserved _ _ Hmaps);
      first [ apply poll_power_keeps_maps | apply poll_volume_keeps_maps
            | apply poll_mute_keeps_maps | apply poll_source_keeps_maps
            | apply keeps_self | apply keeps_getitem | apply keeps_on_telnet
            | apply keeps_ret ]
    | apply preserved_bind; [|intros ?] ].
Qed.

Lemma update_preserved d0 d net :
  names_resolve d /\ codes_named d /\ extends d0 d ->
  names_resolve (device_after (update (d, net))) /\
  codes_named (device_after (update (d, net))) /\
  extends d0 (device_after (update (d, net))).
Proof.
  intros H. destruct net as [|t]; [exact H|].
  unfold device_after. rewrite update_Connected. cbn [fst snd].
  apply (update_connected_preserved d0 (d, t)), H.
Qed.

Lemma extends_refl d : extends d d.
Proof. split; reflexivity. Qed.

Lemma inverse_maps_linked d : inverse_maps d -> names_resolve d /\ codes_named d.
Proof.
  intros Hinv. split.
  - intros n c. apply Hinv.
  - intros c n Hc. apply Hinv in Hc. eauto.
Qed.

Lemma reachable_linked d : reachable d -> names_resolve d /\ codes_named d.
Proof.
  induction 1 as [name host port timeout sources zone|d net _ [IH1 IH2]|d net a _ IH].
  - apply inverse_maps_linked, init_inverse_maps.
  - destruct (update_preserved d d net) as (H1 & H2 & _); auto using extends_refl.
  - rewrite perform_device. exact IH.
Qed.

Lemma linked_inverse_iff d :
  names_resolve d -> codes_named d -> (inverse_maps d <-> distinct_names d).
Proof.
  intros Hnr Hcn. split.
  - intros Hinv c c' n Hc Hc'. apply Hinv in Hc, Hc'. congruence.
  - intros Hd n c. split; [apply Hnr|].
    intros Hc. destruct (Hcn _ _ Hc) as [c' Hc'].
    rewrite (Hd c c' n Hc (Hnr _ _ Hc')). exact Hc'.
Qed.

Lemma range_split n i :
  0 <= i < n ->
  range n =
  (range i ++ i :: map Z.of_nat (seq (S (Z.to_nat i)) (Z.to_nat n - S (Z.to_nat i))))%list.
Proof.
  intros Hi. unfold range.
  replace (Z.to_nat n) with (Z.to_nat i + S (Z.to_nat n - S (Z.to_nat i)))%nat at 1 by lia.
  rewrite seq_app, map_app. cbn [seq map Nat.add].
  rewrite Z2Nat.id by lia. reflexivity.
Qed.

(** The code-to-name entry that a pass over all indices leaves for index
    [i] is the name in the reply to the probe of [i], if that probe got
    data, and none otherwise. *)
Lemma learn_pass_entry d t i :
  _source_number_to_name d = ∅ ->
  0 <= i < MAX_SOURCE_NUMBERS ->
  _source_number_to_name
    (fst (after (for_each (range MAX_SOURCE_NUMBERS) learn_source) (d, t))) !! source_key i =
  match reply (probe i) "RGB" (snd (after (for_each (range i) learn_source) (d, t))) with
  | Some (String _ _ as result) => Some (Py.slice_from 6 result)
  | _ => None
  end.
Proof.
  intros Hempty Hi.
  pose proof source_keys_distinct as Hnd.
  rewrite (range_split _ i Hi) in Hnd |- *.
  rewrite map_app in Hnd. cbn [map] in Hnd. apply List.NoDup_remove_2 in Hnd.
  rewrite after_for_each_app by apply learn_source_returns.
  rewrite after_learn_cons.
  rewrite learn_other_codes.
  2:{ intros j Hj Heq. apply Hnd, in_or_app. right. rewrite <- Heq. apply in_map, Hj. }
  pose proof (learn_other_codes (range i) (d, t) (source_key i)) as Hbefore.
  destruct (after (for_each (range i) learn_source) (d, t)) as [di ti].
  cbn [fst snd] in *. unfold after. rewrite learn_source_eq. cbn [fst snd].
  fold (probe i).
  destruct (reply (probe i) "RGB" ti) as [[|c r]|].
  3: rewrite Hbefore, Hempty; [apply lookup_empty|].
  2: cbn [store_number_to_name _source_number_to_name]; apply lookup_insert_eq.
  1: rewrite Hbefore, Hempty; [apply lookup_empty|].
  all: intros j Hj Heq; apply Hnd, in_or_app; left; rewrite <- Heq; apply in_map, Hj.
Qed.

(** C8, as the driver has it. After construction the two source
    dictionaries are exact inverses. At every reachable state every
    name-to-code entry has its code-to-name entry and every name that a
    code carries is a key of the name-to-code dictionary, so the two are
    exact inverses exactly when no two codes carry the same name. No poll
    cycle removes or changes an entry of either dictionary. A learning
    pass from empty dictionaries files under the key of an index the name
    in the reply to that index's probe, and files nothing for an index
    whose probe got no data. *)
Theorem source_maps_invariant :
  (forall name host port timeout sources zone,
     inverse_maps (init name host port timeout sources zone)) /\
  (forall d, reachable d ->
     names_resolve d /\ codes_named d /\ (inverse_maps d <-> distinct_names d)) /\
  (forall d net, reachable d -> extends d (device_after (update (d, net)))) /\
  (forall d t i,
     _source_name_to_number d = ∅ -> _source_number_to_name d = ∅ ->
     0 <= i < MAX_SOURCE_NUMBERS ->
     _source_number_to_name (fst (after learn_sources (d, t))) !! source_key i =
     match reply (probe i) "RGB"
                 (snd (after (for_each (range i) learn_source) (d, t))) with
     | Some (String _ _ as result) => Some (Py.slice_from 6 result)
     | _ => None
     end).
Proof.
  split; [exact init_inverse_maps|]. split; [|split].
  - intros d Hd. destruct (reachable_linked d Hd) as [Hnr Hcn].
    auto using linked_inverse_iff.
  - intros d net Hd. destruct (reachable_linked d Hd) as [Hnr Hcn].
    apply (update_preserved d d net). auto using extends_refl.
  - intros d t i Hnames Hcodes Hi.
    rewrite <- (learn_pass_entry d t i Hcodes Hi).
    unfold after at 1, learn_sources, bind, self. cbn [fst snd].
    rewrite bool_decide_eq_true_2 by assumption. reflexivity.
Qed.

Lemma source_maps_invariant_witness :
  let d := init "Pioneer AVR" "avr.local" 8102 500 ["DVD"; "CD"] 1 in
  reachable d /\
  names_resolve d /\ codes_named d /\ (inverse_maps d <-> distinct_names d).
Proof.
  intros d.
  assert (Hd : reachable d) by apply reachable_init.
  split; [exact Hd|].
  exact (proj1 (proj2 source_maps_invariant) d Hd).
Defined.

(** C8, as stated, fails: when the probes of indices 0 and 1 are both
    answered with the name "Game", the instance reached has "00" and "01"
    both naming "Game" but "Game" mapped to "01" only. *)
Lemma duplicate_names_break_inverse :
  let d0 := init "Pioneer AVR" "avr.local" 8102 500 [] 1 in
  let d1 := device_after
              (update (d0, scripted ["PWR0"; "VOL100"; "MUT0";
                                     "RGB001Game"; "RGB011Game"])) in
  reachable d1 /\
  _source_number_to_name d1 !! "00" = Some "Game" /\
  _source_name_to_number d1 !! "Game" = Some "01" /\
  ~ inverse_maps d1.
Proof.
  intros d0 d1.
  assert (H00 : _source_number_to_name d1 !! "00" = Some "Game") by (vm_compute; reflexivity).
  assert (HG : _source_name_to_number d1 !! "Game" = Some "01") by (vm_compute; reflexivity).
  split; [apply reachable_update, reachable_init|].
  split; [exact H00|]. split; [exact HG|].
  intros Hinv. apply Hinv in H00. rewrite HG in H00. discriminate H00.
Qed.
